(** * Verification of the chat core of yuzutyaso/chatsite

    Shallow embedding of the synchronisation and social-graph logic found in
    [components/Chat.tsx] (the [Chat] component: [getRoomId], the realtime
    [messageListener], [fetchMessages], [handleSendMessage]) and in
    [pages/index.tsx] (the [Home] page: [upsertProfile], [handleAddFriend]).

    JavaScript strings are sequences of UTF-16 code units; they are modelled
    as [list N], and the relational operator [<] on two strings is the
    lexicographic comparison of code units ([js_lt]).  Literals written in the
    source are ASCII and are converted with [lit]. *)

From Stdlib Require Import String Ascii.
From stdpp Require Import base list gmap.

Open Scope list_scope.

(* ------------------------------------------------------------------------ *)
(** ** JavaScript strings *)

Definition jsstring := list N.

(** A source literal (ASCII) as a sequence of code units. *)
Definition lit (s : string) : jsstring :=
  List.map N_of_ascii (list_ascii_of_string s).

Definition js_eqb (a b : jsstring) : bool := bool_decide (a = b).

(** [a < b] on JavaScript strings: code-unit lexicographic order, a proper
    prefix being smaller. *)
Fixpoint js_lt (a b : jsstring) : bool :=
  match a, b with
  | _, [] => false
  | [], _ :: _ => true
  | x :: a', y :: b' =>
      if (x <? y)%N then true
      else if (y <? x)%N then false
      else js_lt a' b'
  end.

(** JavaScript truthiness of a string: only the empty string is falsy. *)
Definition js_truthy (s : jsstring) : bool :=
  match s with [] => false | _ => true end.

(** [String.prototype.trim]: drops leading and trailing white space.  The
    white-space code units of ECMAScript that matter here: tab, LF, VT, FF,
    CR, space, NBSP, BOM and the Unicode space separators. *)
Definition js_is_space (c : N) : bool :=
  bool_decide (c = 9%N \/ c = 10%N \/ c = 11%N \/ c = 12%N \/ c = 13%N
               \/ c = 32%N \/ c = 160%N \/ c = 5760%N
               \/ (8192 <= c <= 8202)%N \/ c = 8232%N \/ c = 8233%N
               \/ c = 8239%N \/ c = 8287%N \/ c = 12288%N \/ c = 65279%N).

Fixpoint drop_spaces (s : jsstring) : jsstring :=
  match s with
  | [] => []
  | c :: s' => if js_is_space c then drop_spaces s' else s
  end.

Definition js_trim (s : jsstring) : jsstring :=
  List.rev (drop_spaces (List.rev (drop_spaces s))).

(* ------------------------------------------------------------------------ *)
(** ** Room identity ([getRoomId] in [Chat]) *)

(** [user1Id < user2Id ? `${user1Id}_${user2Id}` : `${user2Id}_${user1Id}`] *)
Definition getRoomId (user1Id user2Id : jsstring) : jsstring :=
  if js_lt user1Id user2Id then user1Id ++ lit "_" ++ user2Id
  else user2Id ++ lit "_" ++ user1Id.

Definition underscore : N := 95%N.

Example lit_underscore : lit "_" = [underscore].
Proof. reflexivity. Qed.

(* ------------------------------------------------------------------------ *)
(** ** Data model (the [Profile] and [Message] interfaces) *)

Module Profile.
Record t := mk {
    id : jsstring;
    username : option jsstring;
    avatar_url : option jsstring;
    short_id : jsstring
  }.
End Profile.

(** A row of the [messages] table, as carried by [payload.new]. *)
Module MessageRow.
Record t := mk {
    id : jsstring;
    created_at : jsstring;
    user_id : jsstring;
    room_id : jsstring;
    content : option jsstring;
    image_url : option jsstring
  }.
End MessageRow.

Module Message.
Record t := mk {
    id : jsstring;
    created_at : jsstring;
    user_id : jsstring;
    room_id : jsstring;
    content : option jsstring;
    image_url : option jsstring;
    profiles : option Profile.t
  }.
End Message.

(** [{ ...payload.new, profiles: profileData } as Message] *)
Definition with_profile (r : MessageRow.t) (profileData : option Profile.t)
    : Message.t :=
  Message.mk (MessageRow.id r) (MessageRow.created_at r) (MessageRow.user_id r)
    (MessageRow.room_id r) (MessageRow.content r) (MessageRow.image_url r)
    profileData.

(** An error object returned by the store; only its [code] is inspected. *)
Record PgError := { code : jsstring }.

Definition unique_violation : PgError := {| code := lit "23505" |}.
Definition no_rows : PgError := {| code := lit "PGRST116" |}.

(* ------------------------------------------------------------------------ *)
(** ** Conversation view ([messages] state of [Chat]) *)

Definition RETENTION : nat := 200.

(** The state updater passed to [setMessages] by the realtime listener:
    append, then [slice(newMessages.length - 200)] when over 200. *)
Definition appendMessage (msg : Message.t) (prevMessages : list Message.t)
    : list Message.t :=
  let newMessages := prevMessages ++ [msg] in
  if RETENTION <? length newMessages
  then drop (length newMessages - RETENTION) newMessages
  else newMessages.

Inductive EventType := INSERT | UPDATE | DELETE.

Record Payload := { eventType : EventType; new : MessageRow.t }.

(** The [postgres_changes] callback of [messageListener], with
    [profileData] the answer of the secondary [profiles] lookup (or [None]
    when that lookup failed).  It returns the updated [messages] state. *)
Definition messageListener (payload : Payload) (profileData : option Profile.t)
    (messages : list Message.t) : list Message.t :=
  match eventType payload with
  | INSERT => appendMessage (with_profile (new payload) profileData) messages
  | _ => messages
  end.

(** The [messages] query of [fetchMessages]: the store's answer is the
    table filtered on [room_id], in the store's [created_at] ascending order
    ([rows] is the table in that order), cut at [.limit(200)]. *)
Definition select_room_messages (rows : list Message.t) (room : jsstring)
    : list Message.t :=
  take 200 (List.filter (fun m => js_eqb (Message.room_id m) room) rows).

Inductive QueryResult (A : Type) :=
  | QOk (data : option A)
  | QErr (error : PgError).
Arguments QOk {A} _.
Arguments QErr {A} _.

(** [fetchMessages]: on success [setMessages(data || [])], on error the
    state is left as it is. *)
Definition fetchMessages (result : QueryResult (list Message.t))
    (messages : list Message.t) : list Message.t :=
  match result with
  | QOk data => match data with Some d => d | None => [] end
  | QErr _ => messages
  end.

(** The updates that reach the [messages] state of one open conversation, in
    the order React applies them. *)
Inductive ViewUpdate :=
  | Bulk (result : QueryResult (list Message.t))
  | Live (payload : Payload) (profileData : option Profile.t).

Definition apply_update (messages : list Message.t) (u : ViewUpdate)
    : list Message.t :=
  match u with
  | Bulk r => fetchMessages r messages
  | Live p prof => messageListener p prof messages
  end.

Definition run_updates (messages : list Message.t) (us : list ViewUpdate)
    : list Message.t :=
  fold_left apply_update us messages.

(** Number of entries of the view carrying message id [i]. *)
Definition count_id (i : jsstring) (messages : list Message.t) : nat :=
  length (List.filter (fun m => js_eqb (Message.id m) i) messages).

(** Order by [(created_at, id)]. *)
Definition key_lt (m1 m2 : Message.t) : bool :=
  js_lt (Message.created_at m1) (Message.created_at m2)
  || (js_eqb (Message.created_at m1) (Message.created_at m2)
      && js_lt (Message.id m1) (Message.id m2)).

(** The view is strictly increasing in [(created_at, id)]. *)
Fixpoint ordered (messages : list Message.t) : bool :=
  match messages with
  | m1 :: (m2 :: _) as rest => key_lt m1 m2 && ordered rest
  | _ => true
  end.

(* ------------------------------------------------------------------------ *)
(** ** Sending ([handleSendMessage] in [Chat]) *)

(** The object passed to [supabase.from('messages').insert(...)]. *)
Module MessageInsert.
Record t := mk {
    user_id : jsstring;
    room_id : jsstring;
    content : option jsstring;
    image_url : option jsstring
  }.
End MessageInsert.

(** [handleSendMessage]: returns the insert it issues, [None] when it returns
    early.  [image_url] is not part of the object, hence [None]. *)
Definition handleSendMessage (userId currentRoomId : jsstring)
    (newMessage : jsstring) (uploadingImage : bool) : option MessageInsert.t :=
  if negb (js_truthy (js_trim newMessage)) && negb uploadingImage then None
  else Some (MessageInsert.mk userId currentRoomId (Some newMessage) None).

(* ------------------------------------------------------------------------ *)
(** ** Short ids and profiles ([upsertProfile] in [Home]) *)

Section ShortId.
(** [sha256] of the [js-sha256] package: the lowercase hex digest. *)
Variable sha256 : jsstring -> jsstring.

(** [userEmail ? sha256(userEmail).substring(0, 7) : 'guest_id'] *)
Definition generatedShortId (userEmail : option jsstring) : jsstring :=
  match userEmail with
  | Some e => if js_truthy e then take 7 (sha256 e) else lit "guest_id"
  | None => lit "guest_id"
  end.
End ShortId.

(** The [profiles] table, keyed by [id]. *)
Abbreviation ProfileTable := (gmap jsstring Profile.t).

(** [.select('*').eq('id', userId).single()]: [read_failure] is an error of
    the store itself (network, authorisation); otherwise the row, or the
    error [PGRST116] when no row matches. *)
Definition select_profile (read_failure : option PgError) (profiles : ProfileTable)
    (userId : jsstring) : option Profile.t * option PgError :=
  match read_failure with
  | Some e => (None, Some e)
  | None =>
      match profiles !! userId with
      | Some p => (Some p, None)
      | None => (None, Some no_rows)
      end
  end.

(** [.insert(row).select().single()] on [profiles]: the primary key [id]
    rejects a second row with [23505]; [insert_failure] is any other
    rejection of the store. *)
Definition insert_profile (insert_failure : option PgError) (profiles : ProfileTable)
    (row : Profile.t) : ProfileTable * option Profile.t * option PgError :=
  match profiles !! Profile.id row with
  | Some _ => (profiles, None, Some unique_violation)
  | None =>
      match insert_failure with
      | Some e => (profiles, None, Some e)
      | None => (<[Profile.id row := row]> profiles, Some row, None)
      end
  end.

(** [upsertProfile userId userEmail]: the resulting table and the argument
    of [setMyProfile], [None] when it is not called.  [rand] stands for
    [Math.random().toString(36).substring(7)]. *)
Definition upsertProfile (sha256 : jsstring -> jsstring)
    (read_failure insert_failure : option PgError) (rand : jsstring)
    (profiles : ProfileTable) (userId : jsstring) (userEmail : option jsstring)
    : ProfileTable * option Profile.t :=
  let '(existingProfile, fetchError) := select_profile read_failure profiles userId in
  let stop := match fetchError with
              | Some e => negb (js_eqb (code e) (lit "PGRST116"))
              | None => false
              end in
  if stop then (profiles, None)
  else
    match existingProfile with
    | None =>
        let generatedShortId := generatedShortId sha256 userEmail in
        let row := Profile.mk userId (Some (lit "User-" ++ rand)) None generatedShortId in
        let '(profiles', newProfile, insertError) := insert_profile insert_failure profiles row in
        match insertError with
        | Some _ => (profiles', None)
        | None => (profiles', newProfile)
        end
    | Some p => (profiles, Some p)
    end.

(* ------------------------------------------------------------------------ *)
(** ** Friendships ([handleAddFriend] in [Home]) *)

(** The [friends] table: the status of each [(user_id, friend_id)] row; the
    pair is unique. *)
Abbreviation FriendTable := (gmap (jsstring * jsstring) jsstring).

(** [supabase.from('friends').insert(entry)]: a present pair is rejected
    with [23505]; [fail] gives any other rejection of the store per row. *)
Definition insert_friend (fail : jsstring * jsstring -> option PgError)
    (friends : FriendTable) (user_id friend_id status : jsstring)
    : FriendTable * option PgError :=
  match friends !! (user_id, friend_id) with
  | Some _ => (friends, Some unique_violation)
  | None =>
      match fail (user_id, friend_id) with
      | Some e => (friends, Some e)
      | None => (<[(user_id, friend_id) := status]> friends, None)
      end
  end.

(** What the user is told, and the errors written to [console.error]. *)
Inductive AddFriendOutcome :=
  | AlertAlreadyFriend
  | AlertFailed (logged : list PgError)
  | AlertAdded.

Definition log_unless_unique (e : option PgError) : list PgError :=
  match e with
  | Some err => if negb (js_eqb (code err) (lit "23505")) then [err] else []
  | None => []
  end.

(** [handleAddFriend friendProfileToAdd], signed in as [myId], with
    [friendProfiles] the friend list currently in the state. *)
Definition handleAddFriend (fail : jsstring * jsstring -> option PgError)
    (friendProfiles : list Profile.t) (myId : jsstring)
    (friendProfileToAdd : Profile.t) (friends : FriendTable)
    : FriendTable * AddFriendOutcome :=
  let fid := Profile.id friendProfileToAdd in
  if existsb (fun f => js_eqb (Profile.id f) fid) friendProfiles
  then (friends, AlertAlreadyFriend)
  else
    let '(friends1, insertError1) := insert_friend fail friends myId fid (lit "accepted") in
    let '(friends2, insertError2) := insert_friend fail friends1 fid myId (lit "accepted") in
    match insertError1, insertError2 with
    | None, None => (friends2, AlertAdded)
    | _, _ => (friends2, AlertFailed (log_unless_unique insertError1
                                      ++ log_unless_unique insertError2))
    end.

(* ------------------------------------------------------------------------ *)
(** ** Friend search ([handleSearchFriend] in [Home]) *)

(** [.from('profiles').select('*').eq('short_id', s).limit(1)]: [rows] is
    the [profiles] table in the order the store scans it. *)
Definition select_by_short_id (rows : list Profile.t) (s : jsstring)
    : list Profile.t :=
  take 1 (List.filter (fun p => js_eqb (Profile.short_id p) s) rows).

(** [handleSearchFriend]: the new [searchResults], [None] when it returns
    before querying.  [sessionUserId] is [session?.user.id]; when it is
    [undefined] the comparison [profile.id !== undefined] keeps every row. *)
Definition handleSearchFriend (read_failure : option PgError)
    (rows : list Profile.t) (sessionUserId : option jsstring)
    (friendIdToSearch : jsstring) : option (list Profile.t) :=
  if negb (js_truthy (js_trim friendIdToSearch)) then None
  else
    match read_failure with
    | Some _ => Some []
    | None =>
        let data := select_by_short_id rows (js_trim friendIdToSearch) in
        Some (List.filter (fun p => match sessionUserId with
                                    | Some me => negb (js_eqb (Profile.id p) me)
                                    | None => true
                                    end) data)
    end.

(* ------------------------------------------------------------------------ *)
(** ** Loading the friend list ([fetchFriends] in [Home]) *)

(** The outcome of a JavaScript call: a value, or a thrown error. *)
Inductive JsResult (A : Type) :=
  | Returned (a : A)
  | Threw (error : jsstring).
Arguments Returned {A} _.
Arguments Threw {A} _.

(** The part of the [Home] state [fetchFriends] writes. *)
Record FriendsState := {
  friendProfiles : list Profile.t;
  selectedFriend : option Profile.t
}.

(** [fetchFriends]: after [if (!myProfile) return;] its first statement is
    [setLoading(true)], and [Home] declares no [setLoading] binding (its
    states are [session], [myProfile], [friendProfiles], [selectedFriend],
    [friendIdToSearch], [searchResults] and [loadingSearch]): the call throws
    a [ReferenceError] and the statements after it are never reached. *)
Definition fetchFriends (myProfile : option Profile.t) (s : FriendsState)
    : JsResult FriendsState :=
  match myProfile with
  | None => Returned s
  | Some _ => Threw (lit "ReferenceError: setLoading is not defined")
  end.

(** The friend-list state after [fetchFriends] settles: a thrown error (an
    unhandled rejection of the async function) leaves it as it was. *)
Definition settle (s : FriendsState) (r : JsResult FriendsState) : FriendsState :=
  match r with Returned s' => s' | Threw _ => s end.

(* ------------------------------------------------------------------------ *)
(** ** Sender display in the message list of [Chat] *)

(** [a || b] on two strings. *)
Definition js_or (a b : jsstring) : jsstring := if js_truthy a then a else b.

(** [senderProfile?.username || senderProfile?.short_id || 'Unknown'] with
    [senderProfile = isMyMessage ? myProfile : friendProfile]; both profiles
    are present when the list renders (the loading gate returns earlier when
    [myProfile] is null). *)
Definition senderName (sessionUserId : jsstring) (myProfile friendProfile : Profile.t)
    (message : Message.t) : jsstring :=
  let isMyMessage := js_eqb (Message.user_id message) sessionUserId in
  let senderProfile := if isMyMessage then myProfile else friendProfile in
  match Profile.username senderProfile with
  | Some u => js_or u (js_or (Profile.short_id senderProfile) (lit "Unknown"))
  | None => js_or (Profile.short_id senderProfile) (lit "Unknown")
  end.

(* ------------------------------------------------------------------------ *)
(** ** Image messages ([handleImageUpload] in [Chat]) *)

(** [s.split(c)] for a one-code-unit separator [c]. *)
Fixpoint js_split (c : N) (s : jsstring) : list jsstring :=
  match s with
  | [] => [[]]
  | x :: s' =>
      let parts := js_split c s' in
      if (x =? c)%N then [] :: parts
      else match parts with
           | p :: ps => (x :: p) :: ps
           | [] => [[x]]
           end
  end.

(** [arr.pop()] on a non-empty array: its last element. *)
Definition js_pop (parts : list jsstring) : jsstring := List.last parts [].

Definition dot : N := 46%N.
Definition slash : N := 47%N.

(** [file.name.split('.').pop()] *)
Definition fileExt (name : jsstring) : jsstring := js_pop (js_split dot name).

(** [`chat_images/${currentRoomId}/${session.user.id}/${fileName}`] with
    [fileName = `${Math.random()}.${fileExt}`]; [rand] is the printed
    random number. *)
Definition filePath (currentRoomId userId rand name : jsstring) : jsstring :=
  lit "chat_images/" ++ currentRoomId ++ [slash] ++ userId ++ [slash]
  ++ (rand ++ [dot] ++ fileExt name).

(* ------------------------------------------------------------------------ *)
(** ** The message effect of [Chat] and its dependencies *)

(** What the effect [useEffect(() => {...}, [currentRoomId, messages.length])]
    of [Chat] does when it runs: its cleanup removes the channel of the
    previous run, its body starts [fetchMessages()], subscribes a new
    channel [room:${currentRoomId}] and scrolls to the bottom. *)
Inductive EffectAction :=
  | RemoveChannel (room : jsstring)
  | FetchMessages (room : jsstring)
  | Subscribe (room : jsstring)
  | ScrollToBottom.

(** The dependency array [[currentRoomId, messages.length]]. *)
Definition chatEffectDeps (currentRoomId : jsstring) (messages : list Message.t)
    : jsstring * nat :=
  (currentRoomId, length messages).

(** React re-runs an effect after a render when some dependency differs
    from the one of the previous render ([Object.is] on strings and numbers). *)
Definition deps_changed (old new : jsstring * nat) : bool :=
  negb (js_eqb old.1 new.1 && Nat.eqb old.2 new.2).

(** The effect actions a render with dependencies [new] issues after a
    render with dependencies [old]. *)
Definition chatEffect_commit (old new : jsstring * nat) : list EffectAction :=
  if deps_changed old new
  then [RemoveChannel old.1; FetchMessages new.1; Subscribe new.1; ScrollToBottom]
  else [].

(* ------------------------------------------------------------------------ *)
(** ** Auxiliary definitions for the statements *)

(** The last [n] entries of a list. *)
Definition lastn {A} (n : nat) (l : list A) : list A := drop (length l - n) l.

(** The live update of an [INSERT] notification for [r], whose author lookup
    answered [prof]. *)
Definition live_insert (rp : MessageRow.t * option Profile.t) : ViewUpdate :=
  Live {| eventType := INSERT; new := rp.1 |} rp.2.

(** Sample rows: ["000"], ["001"], ... as both id and timestamp. *)
Definition digits3 (n : nat) : jsstring :=
  [N.of_nat (48 + n / 100); N.of_nat (48 + (n / 10) mod 10);
   N.of_nat (48 + n mod 10)].

Definition sample_row (n : nat) : MessageRow.t :=
  MessageRow.mk (digits3 n) (digits3 n) (lit "bob") (lit "alice_bob")
    (Some (lit "hi")) None.

(** A stand-in for the digest function with the length of [js-sha256]'s
    output (64 characters), used to instantiate statements on concrete
    inputs. *)
Definition sha256_stub (s : jsstring) : jsstring :=
  take 64 (s ++ repeat 48%N 64).

Definition sample_profile : Profile.t :=
  Profile.mk (lit "u1") (Some (lit "alice")) None (lit "2bd806c").

(** Two profiles sharing the sentinel short id, and a room of 201 messages. *)
Definition sample_owner : Profile.t :=
  Profile.mk (lit "u1") (Some (lit "alice")) None (lit "guest_id").

Definition sample_other : Profile.t :=
  Profile.mk (lit "u2") (Some (lit "bob")) None (lit "guest_id").

Definition sample_room_rows : list Message.t :=
  map (fun n => with_profile (sample_row n) None) (seq 0 201).

(** A full view: the first 200 of those messages. *)
Definition sample_full_view : list Message.t :=
  map (fun n => with_profile (sample_row n) None) (seq 0 200).

(* ======================================================================== *)
(** * Properties *)

(** ** Order of JavaScript strings *)

Lemma js_lt_asym (a b : jsstring) : js_lt a b = true -> js_lt b a = false.
Proof.
  revert b; induction a as [|x a IH]; intros [|y b]; simpl; try easy.
  destruct (x <? y)%N eqn:Hxy, (y <? x)%N eqn:Hyx; try easy.
  - apply N.ltb_lt in Hxy, Hyx. lia.
  - apply IH.
Qed.

Lemma js_lt_total (a b : jsstring) :
  js_lt a b = false -> js_lt b a = false -> a = b.
Proof.
  revert b; induction a as [|x a IH]; intros [|y b]; simpl; try easy.
  destruct (x <? y)%N eqn:Hxy, (y <? x)%N eqn:Hyx; try easy.
  intros H1 H2. apply N.ltb_ge in Hxy, Hyx.
  f_equal; [lia | auto].
Qed.

(** ** Splitting at the separator *)

Lemma split_at_separator (x y x' y' : jsstring) :
  underscore ∉ x -> underscore ∉ x' ->
  x ++ [underscore] ++ y = x' ++ [underscore] ++ y' -> x = x' /\ y = y'.
Proof.
  revert x'; induction x as [|c x IH]; intros [|c' x'] Hx Hx' H; simpl in H.
  - injection H; auto.
  - injection H as Hc _. exfalso. apply Hx'. rewrite Hc. left.
  - injection H as Hc _. exfalso. apply Hx. rewrite <- Hc. left.
  - injection H as -> H.
    destruct (IH x') as [-> ->]; auto.
    + intros Hin. apply Hx. right. exact Hin.
    + intros Hin. apply Hx'. right. exact Hin.
Qed.

(** ** Room identity *)

(** C4: [getRoomId] is commutative for all identifiers, the self-chat pair
    included, where it is the identifier, [_], the identifier. *)
Theorem getRoomId_comm (a b : jsstring) :
  getRoomId a b = getRoomId b a /\ getRoomId a a = a ++ lit "_" ++ a.
Proof.
  unfold getRoomId. split.
  - destruct (js_lt a b) eqn:Hab.
    + rewrite (js_lt_asym a b Hab). reflexivity.
    + destruct (js_lt b a) eqn:Hba; [reflexivity|].
      rewrite (js_lt_total a b Hab Hba). reflexivity.
  - destruct (js_lt a a); reflexivity.
Qed.

(** C5, refuted: an identifier containing [_] makes two rooms sharing the
    side ["a_b_a"] collide, for the distinct peers ["b_a"] and ["a_b"]. *)
Lemma getRoomId_collision :
  lit "b_a" <> lit "a_b" /\
  getRoomId (lit "a_b_a") (lit "b_a") = getRoomId (lit "a_b_a") (lit "a_b").
Proof. split; [discriminate | reflexivity]. Qed.

Lemma getRoomId_shape (a b : jsstring) :
  getRoomId a b = a ++ [underscore] ++ b \/ getRoomId a b = b ++ [underscore] ++ a.
Proof. unfold getRoomId. destruct (js_lt a b); [left|right]; reflexivity. Qed.

(** C5, amended: when no identifier contains the separator [_] (as for the
    UUIDs of the authentication provider), distinct peers sharing one side
    get distinct room ids. *)
Theorem getRoomId_injective_no_separator (a b c : jsstring) :
  underscore ∉ a -> underscore ∉ b -> underscore ∉ c ->
  b <> c -> getRoomId a b <> getRoomId a c.
Proof.
  intros Ha Hb Hc Hbc Heq.
  destruct (getRoomId_shape a b) as [E1|E1], (getRoomId_shape a c) as [E2|E2];
    rewrite E1, E2 in Heq.
  - destruct (split_at_separator _ _ _ _ Ha Ha Heq); auto.
  - destruct (split_at_separator _ _ _ _ Ha Hc Heq) as [-> ->]; auto.
  - destruct (split_at_separator _ _ _ _ Hb Ha Heq) as [-> ->]; auto.
  - destruct (split_at_separator _ _ _ _ Hb Hc Heq); auto.
Qed.

Lemma getRoomId_injective_no_separator_witness :
  (underscore ∉ lit "alice") /\ (underscore ∉ lit "bob") /\
  (underscore ∉ lit "carol") /\ lit "bob" <> lit "carol" /\
  getRoomId (lit "alice") (lit "bob") <> getRoomId (lit "alice") (lit "carol").
Proof.
  assert (Ha : underscore ∉ lit "alice") by (apply (bool_decide_unpack (underscore ∉ _)); vm_compute; exact I).
  assert (Hb : underscore ∉ lit "bob") by (apply (bool_decide_unpack (underscore ∉ _)); vm_compute; exact I).
  assert (Hc : underscore ∉ lit "carol") by (apply (bool_decide_unpack (underscore ∉ _)); vm_compute; exact I).
  assert (Hbc : lit "bob" <> lit "carol") by discriminate.
  repeat split; try assumption.
  exact (getRoomId_injective_no_separator _ _ _ Ha Hb Hc Hbc).
Defined.

(** ** Retention *)

Lemma appendMessage_lastn (m : Message.t) (v : list Message.t) :
  appendMessage m v = lastn RETENTION (v ++ [m]).
Proof.
  unfold appendMessage, lastn.
  destruct (RETENTION <? length (v ++ [m])) eqn:H; [reflexivity|].
  apply Nat.ltb_ge in H. replace (length (v ++ [m]) - RETENTION) with 0 by lia.
  reflexivity.
Qed.

Lemma lastn_length {A} (n : nat) (l : list A) : length (lastn n l) <= n.
Proof. unfold lastn. rewrite length_drop. lia. Qed.

Lemma lastn_small {A} (n : nat) (l : list A) : length l <= n -> lastn n l = l.
Proof. intros H. unfold lastn. replace (length l - n) with 0 by lia. reflexivity. Qed.

Lemma lastn_app_lastn {A} (n : nat) (x y : list A) :
  lastn n (lastn n x ++ y) = lastn n (x ++ y).
Proof.
  unfold lastn at 2. rewrite <- drop_app_le by lia.
  unfold lastn. rewrite drop_drop, !length_drop, !length_app.
  f_equal. lia.
Qed.

Lemma appends_lastn (ms : list Message.t) (v : list Message.t) :
  length v <= RETENTION ->
  fold_left (fun acc m => appendMessage m acc) ms v = lastn RETENTION (v ++ ms).
Proof.
  revert v; induction ms as [|m ms IH]; intros v Hv; simpl.
  - rewrite app_nil_r. symmetry. apply lastn_small. exact Hv.
  - rewrite IH by (rewrite appendMessage_lastn; apply lastn_length).
    rewrite appendMessage_lastn, lastn_app_lastn, <- app_assoc. reflexivity.
Qed.

Lemma run_live_inserts (live : list (MessageRow.t * option Profile.t))
    (v : list Message.t) :
  run_updates v (map live_insert live)
  = fold_left (fun acc m => appendMessage m acc)
      (map (fun rp => with_profile rp.1 rp.2) live) v.
Proof.
  revert v; induction live as [|[r prof] live IH]; intros v; simpl; auto.
Qed.

(** C1, refuted: the same [INSERT] notification merged twice into an empty
    view leaves its message id twice in the view. *)
Lemma duplicate_insert_kept :
  let p := {| eventType := INSERT; new := sample_row 1 |} in
  count_id (digits3 1) (messageListener p None (messageListener p None [])) = 2.
Proof. reflexivity. Qed.

(** C1, amended: merging an [INSERT] notification appends its message at the
    end without looking at the ids already present (then keeps the last 200);
    so merging the same notification twice into a view of at most 198
    entries adds two copies of that message id. *)
Theorem duplicate_insert_appends_twice (p : Payload) (prof : option Profile.t)
    (v : list Message.t) :
  eventType p = INSERT -> length v <= 198 ->
  let m := with_profile (new p) prof in
  messageListener p prof (messageListener p prof v) = v ++ [m; m] /\
  count_id (Message.id m) (messageListener p prof (messageListener p prof v))
  = count_id (Message.id m) v + 2.
Proof.
  intros Hins Hv m. unfold messageListener. rewrite Hins.
  rewrite !appendMessage_lastn, lastn_app_lastn, <- app_assoc.
  rewrite lastn_small by (rewrite length_app; simpl; unfold RETENTION; lia).
  split; [reflexivity|].
  unfold count_id. rewrite List.filter_app, length_app.
  assert (E : js_eqb (Message.id m) (Message.id m) = true)
    by (unfold js_eqb; apply bool_decide_eq_true_2; reflexivity).
  change ([with_profile (new p) prof] ++ [with_profile (new p) prof]) with [m; m].
  cbn [List.filter]. rewrite E. cbn [length]. lia.
Qed.

Lemma duplicate_insert_appends_twice_witness :
  let p := {| eventType := INSERT; new := sample_row 1 |} in
  eventType p = INSERT /\ length (@nil Message.t) <= 198 /\
  messageListener p None (messageListener p None [])
  = [with_profile (sample_row 1) None; with_profile (sample_row 1) None] /\
  count_id (digits3 1) (messageListener p None (messageListener p None [])) = 0 + 2.
Proof.
  intros p.
  assert (H1 : eventType p = INSERT) by reflexivity.
  assert (H2 : length (@nil Message.t) <= 198) by (simpl; lia).
  destruct (duplicate_insert_appends_twice p None [] H1 H2) as [E C].
  exact (conj H1 (conj H2 (conj E C))).
Defined.

(** C10: a notification that is not an [INSERT] leaves the view as it is. *)
Theorem non_insert_event_frame (p : Payload) (prof : option Profile.t)
    (v : list Message.t) :
  eventType p <> INSERT -> messageListener p prof v = v.
Proof. intros H. unfold messageListener. destruct (eventType p); congruence. Qed.

Lemma non_insert_event_frame_witness :
  let p := {| eventType := DELETE; new := sample_row 1 |} in
  eventType p <> INSERT /\
  messageListener p None [with_profile (sample_row 2) None]
  = [with_profile (sample_row 2) None].
Proof.
  intros p.
  assert (H : eventType p <> INSERT) by discriminate.
  split; [exact H | exact (non_insert_event_frame p None _ H)].
Defined.

(** C2, refuted: a live message older than the bulk read is appended after
    it, so the view is not ordered by [(created_at, id)]; the same message
    delivered again is kept twice; and the view depends on whether the live
    notification is applied before or after the bulk read. *)
Lemma view_depends_on_delivery :
  let bulk := Bulk (QOk (Some [with_profile (sample_row 2) None])) in
  let live := live_insert (sample_row 1, None) in
  ordered (run_updates [] [bulk; live]) = false /\
  count_id (digits3 2)
    (run_updates [] [bulk; live_insert (sample_row 2, None)]) = 2 /\
  run_updates [] [bulk; live] <> run_updates [] [live; bulk].
Proof. split; [reflexivity | split; [reflexivity | discriminate]]. Qed.

(** C2, amended: after a successful bulk read of the room and the live
    [INSERT] merges applied after it, the view is the last 200 entries of the
    bulk result followed by the live messages in the order their merges were
    applied; nothing is sorted or deduplicated. *)
Theorem view_after_bulk_and_live (v0 rows : list Message.t) (room : jsstring)
    (live : list (MessageRow.t * option Profile.t)) :
  run_updates v0 (Bulk (QOk (Some (select_room_messages rows room)))
                  :: map live_insert live)
  = lastn RETENTION (select_room_messages rows room
                     ++ map (fun rp => with_profile rp.1 rp.2) live).
Proof.
  simpl. rewrite run_live_inserts. apply appends_lastn.
  unfold select_room_messages. rewrite length_take. unfold RETENTION. lia.
Qed.

(** After any merge of a live [INSERT] the view holds at
    most 200 messages. *)
Lemma insert_merge_bounded (r : MessageRow.t) (prof : option Profile.t)
    (v : list Message.t) :
  length (messageListener {| eventType := INSERT; new := r |} prof v) <= RETENTION.
Proof. unfold messageListener; cbn [eventType]. rewrite appendMessage_lastn. apply lastn_length. Qed.

(** C3, refuted: the most recent of 201 distinct messages, when delivered
    first, is evicted; the view does not keep the 200 most recent. *)
Lemma retention_by_delivery_order :
  let rows := sample_row 999 :: map sample_row (seq 0 200) in
  let view := run_updates [] (map (fun r => live_insert (r, None)) rows) in
  length rows = 201 /\
  forallb (fun r => key_lt (with_profile r None) (with_profile (sample_row 999) None))
    (map sample_row (seq 0 200)) = true /\
  count_id (digits3 999) view = 0 /\ length view = 200.
Proof. vm_compute. repeat split. Qed.

(** C3, amended: after any [INSERT] merge the view holds at most 200
    messages, and merging live messages into a view of at most 200 keeps the
    last 200 of the view followed by the new messages in delivery order: the
    oldest delivered are evicted from the front. *)
Theorem retention_last_200_delivered (v : list Message.t)
    (live : list (MessageRow.t * option Profile.t)) :
  length v <= RETENTION ->
  (forall r prof w,
     length (messageListener {| eventType := INSERT; new := r |} prof w) <= RETENTION) /\
  run_updates v (map live_insert live)
  = lastn RETENTION (v ++ map (fun rp => with_profile rp.1 rp.2) live).
Proof.
  intros Hv. split.
  - intros r prof w. apply insert_merge_bounded.
  - rewrite run_live_inserts. apply appends_lastn. exact Hv.
Qed.

Lemma retention_last_200_delivered_witness :
  length sample_full_view <= RETENTION /\
  run_updates sample_full_view
    (map live_insert [(sample_row 200, None); (sample_row 201, None)])
  = lastn RETENTION (sample_full_view ++ [with_profile (sample_row 200) None;
                                          with_profile (sample_row 201) None]) /\
  (let view := run_updates sample_full_view
                 (map live_insert [(sample_row 200, None); (sample_row 201, None)]) in
   length view = 200 /\
   count_id (digits3 0) view = 0 /\ count_id (digits3 1) view = 0 /\
   count_id (digits3 2) view = 1 /\
   count_id (digits3 200) view = 1 /\ count_id (digits3 201) view = 1).
Proof.
  assert (H : length sample_full_view <= RETENTION)
    by (unfold sample_full_view, RETENTION; rewrite length_map, length_seq; lia).
  split; [exact H|]. split.
  - exact (proj2 (retention_last_200_delivered sample_full_view
                    [(sample_row 200, None); (sample_row 201, None)] H)).
  - vm_compute. repeat split.
Defined.

(** ** Short ids *)

(** C6, refuted: without an e-mail the short id is the sentinel
    ["guest_id"], which has 8 characters, not 7. *)
Lemma guest_id_not_seven :
  length (generatedShortId sha256_stub None) = 8 /\
  length (generatedShortId sha256_stub None) <> 7.
Proof. split; [reflexivity | discriminate]. Qed.

(** C6, amended: given the 64-hex-digit SHA-256 digest, a non-empty e-mail
    yields the first 7 digits of its digest (7 characters); an absent or
    empty e-mail yields the fixed sentinel ["guest_id"] (8 characters). *)
Theorem generatedShortId_spec (sha256 : jsstring -> jsstring)
    (Hlen : forall s, length (sha256 s) = 64) (userEmail : option jsstring) :
  match userEmail with
  | Some ((_ :: _) as e) =>
      generatedShortId sha256 userEmail = take 7 (sha256 e) /\
      length (generatedShortId sha256 userEmail) = 7
  | _ =>
      generatedShortId sha256 userEmail = lit "guest_id" /\
      length (generatedShortId sha256 userEmail) = 8
  end.
Proof.
  destruct userEmail as [[|c e]|]; simpl; try (split; reflexivity).
  split; [reflexivity|]. rewrite length_take, Hlen. reflexivity.
Qed.

Lemma sha256_stub_length (s : jsstring) : length (sha256_stub s) = 64.
Proof.
  unfold sha256_stub. rewrite length_take, length_app, repeat_length. lia.
Qed.

Lemma generatedShortId_spec_witness :
  (forall s, length (sha256_stub s) = 64) /\
  (generatedShortId sha256_stub (Some (lit "alice@x.com"))
   = take 7 (sha256_stub (lit "alice@x.com")) /\
   length (generatedShortId sha256_stub (Some (lit "alice@x.com"))) = 7).
Proof.
  split; [exact sha256_stub_length|].
  exact (generatedShortId_spec sha256_stub sha256_stub_length (Some (lit "alice@x.com"))).
Defined.

(** ** Profiles *)

(** C8: when the profile row of [userId] exists, [upsertProfile] leaves the
    table as it is (no insert, no field changed) and, when the read
    succeeds, hands that very row to [setMyProfile]; it never hands over any
    other row. *)
Theorem upsertProfile_existing_frame (sha256 : jsstring -> jsstring)
    (read_failure insert_failure : option PgError) (rand : jsstring)
    (profiles : ProfileTable) (userId : jsstring) (userEmail : option jsstring)
    (p : Profile.t) :
  profiles !! userId = Some p ->
  let '(profiles', myProfile) :=
    upsertProfile sha256 read_failure insert_failure rand profiles userId userEmail in
  profiles' = profiles /\
  (read_failure = None -> myProfile = Some p) /\
  (myProfile = None \/ myProfile = Some p).
Proof.
  intros Hp. unfold upsertProfile, select_profile.
  destruct read_failure as [e|]; cbn zeta iota beta.
  - destruct (negb (js_eqb (code e) (lit "PGRST116"))); cbn iota.
    + split; [reflexivity | split; [discriminate | left; reflexivity]].
    + unfold insert_profile. cbn [Profile.id]. rewrite Hp.
      split; [reflexivity | split; [discriminate | left; reflexivity]].
  - rewrite Hp. cbn. split; [reflexivity | split; [reflexivity | right; reflexivity]].
Qed.

Lemma upsertProfile_existing_frame_witness :
  ({[lit "u1" := sample_profile]} : ProfileTable) !! lit "u1" = Some sample_profile /\
  upsertProfile sha256_stub None None (lit "x") {[lit "u1" := sample_profile]}
    (lit "u1") (Some (lit "alice@x.com"))
  = ({[lit "u1" := sample_profile]}, Some sample_profile).
Proof.
  assert (Hp : ({[lit "u1" := sample_profile]} : ProfileTable) !! lit "u1"
               = Some sample_profile) by reflexivity.
  split; [exact Hp|].
  pose proof (upsertProfile_existing_frame sha256_stub None None (lit "x")
                _ (lit "u1") (Some (lit "alice@x.com")) _ Hp) as H.
  destruct (upsertProfile _ _ _ _ _ _ _) as [profiles' myProfile].
  destruct H as [-> [H _]]. rewrite (H eq_refl). reflexivity.
Defined.

(** ** Friendships *)

(** C7, code defect: [handleAddFriend] only keeps a [23505] error out of the
    console log; any insert error, [23505] included, ends in the failure
    alert and skips the refresh.  A first attempt whose [(B,A)] insert is
    rejected leaves only [(A,B)]; the retry creates [(B,A)] but, [(A,B)]
    being rejected with [23505], reports failure again. *)
Theorem addFriend_retry_reports_failure :
  let A := lit "alice" in
  let B := Profile.mk (lit "bob") None None (lit "81b637d") in
  let fail1 := fun k : jsstring * jsstring =>
    if bool_decide (k = (lit "bob", lit "alice")) then Some {| code := lit "42501" |}
    else None in
  let '(friends1, outcome1) := handleAddFriend fail1 [] A B ∅ in
  let '(friends2, outcome2) := handleAddFriend (fun _ => None) [] A B friends1 in
  friends1 = {[(A, lit "bob") := lit "accepted"]} /\
  outcome1 = AlertFailed [{| code := lit "42501" |}] /\
  friends2 !! (lit "bob", A) = Some (lit "accepted") /\
  friends2 !! (A, lit "bob") = Some (lit "accepted") /\
  outcome2 = AlertFailed [].
Proof. vm_compute. repeat split. Qed.

(** ** Sending *)

(** C9, refuted: white-space text is rejected although the text body is not
    empty, and while an image upload is in progress an empty text is sent as
    a message with neither text nor image. *)
Lemma send_guard_cases :
  handleSendMessage (lit "u1") (lit "u1_u2") (lit "  ") false = None /\
  handleSendMessage (lit "u1") (lit "u1_u2") [] true
  = Some (MessageInsert.mk (lit "u1") (lit "u1_u2") (Some []) None).
Proof. split; reflexivity. Qed.

(** C9, amended: with no image upload in progress, [handleSendMessage]
    issues no insert exactly when the text, trimmed of white space, is
    empty; otherwise it inserts the text as [content], with no attachment
    reference, and that text is not blank. *)
Theorem send_rejects_blank_text (userId room newMessage : jsstring) :
  match handleSendMessage userId room newMessage false with
  | None => js_trim newMessage = []
  | Some ins =>
      js_trim newMessage <> [] /\
      MessageInsert.content ins = Some newMessage /\
      MessageInsert.image_url ins = None /\
      MessageInsert.user_id ins = userId /\ MessageInsert.room_id ins = room
  end.
Proof.
  unfold handleSendMessage.
  destruct (js_trim newMessage) as [|c t] eqn:E; simpl.
  - reflexivity.
  - repeat split; auto; discriminate.
Qed.

(* ======================================================================== *)
(** * Further properties of the code *)

(** ** Friend search *)

Lemma js_eqb_true (a b : jsstring) : js_eqb a b = true <-> a = b.
Proof. unfold js_eqb. apply bool_decide_eq_true. Qed.

Lemma js_eqb_refl (a : jsstring) : js_eqb a a = true.
Proof. apply js_eqb_true. reflexivity. Qed.

Lemma select_by_short_id_find (rows : list Profile.t) (s : jsstring) :
  select_by_short_id rows s
  = match List.find (fun p => js_eqb (Profile.short_id p) s) rows with
    | Some p => [p]
    | None => []
    end.
Proof.
  unfold select_by_short_id.
  induction rows as [|r rows IH]; simpl; [reflexivity|].
  destruct (js_eqb (Profile.short_id r) s); [reflexivity | exact IH].
Qed.

Lemma search_by_find (rows : list Profile.t) (me q : jsstring) :
  js_trim q <> [] ->
  handleSearchFriend None rows (Some me) q
  = Some (match List.find (fun p => js_eqb (Profile.short_id p) (js_trim q)) rows with
          | Some p => if js_eqb (Profile.id p) me then [] else [p]
          | None => []
          end).
Proof.
  intros Hq. unfold handleSearchFriend.
  destruct (js_trim q) as [|c t] eqn:E; [congruence|]. simpl.
  rewrite <- E, select_by_short_id_find.
  destruct (List.find _ rows) as [p|]; simpl; [|reflexivity].
  destruct (js_eqb (Profile.id p) me); reflexivity.
Qed.

(** Search returns at most one profile and never the caller's own. *)
Theorem search_excludes_self (read_failure : option PgError) (rows : list Profile.t)
    (me q : jsstring) (res : list Profile.t) :
  handleSearchFriend read_failure rows (Some me) q = Some res ->
  length res <= 1 /\ Forall (fun p => Profile.id p <> me) res.
Proof.
  unfold handleSearchFriend.
  destruct (negb (js_truthy (js_trim q))); [discriminate|].
  destruct read_failure; intros H; injection H as <-.
  - split; [simpl; lia | constructor].
  - split.
    + etransitivity; [apply filter_length_le|].
      unfold select_by_short_id. rewrite length_take. lia.
    + apply List.Forall_forall. intros p Hp. apply filter_In in Hp as [_ Hp].
      intros E. rewrite E, js_eqb_refl in Hp. discriminate.
Qed.

Lemma search_excludes_self_witness :
  handleSearchFriend None [sample_other; sample_owner] (Some (lit "u1")) (lit " guest_id ")
  = Some [sample_other] /\
  length [sample_other] <= 1 /\ Forall (fun p => Profile.id p <> lit "u1") [sample_other].
Proof.
  assert (H : handleSearchFriend None [sample_other; sample_owner] (Some (lit "u1"))
                (lit " guest_id ") = Some [sample_other]) by reflexivity.
  exact (conj H (search_excludes_self None _ _ _ _ H)).
Defined.

(** The search looks at the first profile of the store carrying the trimmed
    short id only: when that profile is the caller's own, the result is
    empty, even if another profile carries the same short id. *)
Theorem search_own_profile_shadows (pre post : list Profile.t) (self : Profile.t)
    (me q : jsstring) :
  js_trim q <> [] -> Profile.id self = me -> Profile.short_id self = js_trim q ->
  Forall (fun p => Profile.short_id p <> js_trim q) pre ->
  handleSearchFriend None (pre ++ self :: post) (Some me) q = Some [].
Proof.
  intros Hq Hid Hs Hpre. rewrite search_by_find by exact Hq.
  induction Hpre as [|p pre Hp _ IH]; simpl.
  - rewrite Hs, js_eqb_refl, Hid, js_eqb_refl. reflexivity.
  - destruct (js_eqb (Profile.short_id p) (js_trim q)) eqn:E.
    + apply js_eqb_true in E. contradiction.
    + exact IH.
Qed.

Lemma search_own_profile_shadows_witness :
  lit "guest_id" <> [] /\ Profile.id sample_owner = lit "u1" /\
  Profile.short_id sample_owner = js_trim (lit "guest_id") /\
  Forall (fun p => Profile.short_id p <> js_trim (lit "guest_id")) [] /\
  handleSearchFriend None ([] ++ sample_owner :: [sample_other]) (Some (lit "u1"))
    (lit "guest_id") = Some [].
Proof.
  assert (H1 : js_trim (lit "guest_id") <> []) by discriminate.
  assert (H2 : Profile.id sample_owner = lit "u1") by reflexivity.
  assert (H3 : Profile.short_id sample_owner = js_trim (lit "guest_id")) by reflexivity.
  assert (H4 : Forall (fun p => Profile.short_id p <> js_trim (lit "guest_id")) [])
    by constructor.
  split; [discriminate|].
  exact (conj H2 (conj H3 (conj H4
           (search_own_profile_shadows [] [sample_other] sample_owner _ _ H1 H2 H3 H4)))).
Defined.

(** ** Adding a friend *)

Lemma insert_friend_keeps (fail : jsstring * jsstring -> option PgError)
    (friends : FriendTable) (u f st : jsstring) (k : jsstring * jsstring) (v : jsstring) :
  friends !! k = Some v -> (insert_friend fail friends u f st).1 !! k = Some v.
Proof.
  intros Hk. unfold insert_friend.
  destruct (friends !! (u, f)) eqn:E; [exact Hk|].
  destruct (fail (u, f)); [exact Hk|]. simpl.
  rewrite lookup_insert_ne; [exact Hk|]. congruence.
Qed.

Lemma insert_friend_other (fail : jsstring * jsstring -> option PgError)
    (friends : FriendTable) (u f st : jsstring) (k : jsstring * jsstring) :
  k <> (u, f) -> (insert_friend fail friends u f st).1 !! k = friends !! k.
Proof.
  intros Hk. unfold insert_friend.
  destruct (friends !! (u, f)); [reflexivity|].
  destruct (fail (u, f)); [reflexivity|]. simpl.
  rewrite lookup_insert_ne; [reflexivity|]. congruence.
Qed.

Lemma insert_friend_ok (fail : jsstring * jsstring -> option PgError)
    (friends : FriendTable) (u f st : jsstring) :
  (insert_friend fail friends u f st).2 = None ->
  (insert_friend fail friends u f st).1 !! (u, f) = Some st.
Proof.
  unfold insert_friend.
  destruct (friends !! (u, f)); [discriminate|].
  destruct (fail (u, f)); [discriminate|]. simpl.
  intros _. apply lookup_insert_eq.
Qed.

(** A profile already in the loaded friend list is refused with the
    "already a friend" alert, and nothing is written. *)
Theorem addFriend_already_friend (fail : jsstring * jsstring -> option PgError)
    (friendProfiles : list Profile.t) (myId : jsstring) (f p : Profile.t)
    (friends : FriendTable) :
  In f friendProfiles -> Profile.id f = Profile.id p ->
  handleAddFriend fail friendProfiles myId p friends = (friends, AlertAlreadyFriend).
Proof.
  intros Hin Hid. unfold handleAddFriend.
  replace (existsb _ friendProfiles) with true; [reflexivity|].
  symmetry. apply existsb_exists. exists f. split; [exact Hin|].
  apply js_eqb_true. exact Hid.
Qed.

Lemma addFriend_already_friend_witness :
  In sample_other [sample_other] /\ Profile.id sample_other = Profile.id sample_other /\
  handleAddFriend (fun _ => None) [sample_other] (lit "u1") sample_other ∅
  = (∅, AlertAlreadyFriend).
Proof.
  assert (H1 : In sample_other [sample_other]) by (left; reflexivity).
  assert (H2 : Profile.id sample_other = Profile.id sample_other) by reflexivity.
  exact (conj H1 (conj H2 (addFriend_already_friend _ _ _ _ _ _ H1 H2))).
Defined.

(** [handleAddFriend] never changes or removes a row already in the
    [friends] table; the only rows it may add are [(me, friend)] and
    [(friend, me)]. *)
Theorem addFriend_frame (fail : jsstring * jsstring -> option PgError)
    (friendProfiles : list Profile.t) (myId : jsstring) (p : Profile.t)
    (friends : FriendTable) :
  let friends' := (handleAddFriend fail friendProfiles myId p friends).1 in
  (forall k v, friends !! k = Some v -> friends' !! k = Some v) /\
  (forall k, k <> (myId, Profile.id p) -> k <> (Profile.id p, myId) ->
             friends' !! k = friends !! k).
Proof.
  unfold handleAddFriend.
  destruct (existsb _ friendProfiles); [split; auto|].
  destruct (insert_friend fail friends myId (Profile.id p) (lit "accepted"))
    as [friends1 e1] eqn:E1.
  destruct (insert_friend fail friends1 (Profile.id p) myId (lit "accepted"))
    as [friends2 e2] eqn:E2.
  assert (R : (match e1, e2 with
               | None, None => (friends2, AlertAdded)
               | _, _ => (friends2, AlertFailed (log_unless_unique e1 ++ log_unless_unique e2))
               end).1 = friends2) by (destruct e1, e2; reflexivity).
  simpl. rewrite R. split.
  - intros k v Hk.
    assert (H1 : friends1 !! k = Some v).
    { replace friends1 with (insert_friend fail friends myId (Profile.id p) (lit "accepted")).1
        by (rewrite E1; reflexivity).
      apply insert_friend_keeps. exact Hk. }
    replace friends2 with (insert_friend fail friends1 (Profile.id p) myId (lit "accepted")).1
      by (rewrite E2; reflexivity).
    apply insert_friend_keeps. exact H1.
  - intros k Hk1 Hk2.
    replace friends2 with (insert_friend fail friends1 (Profile.id p) myId (lit "accepted")).1
      by (rewrite E2; reflexivity).
    rewrite insert_friend_other by exact Hk2.
    replace friends1 with (insert_friend fail friends myId (Profile.id p) (lit "accepted")).1
      by (rewrite E1; reflexivity).
    apply insert_friend_other. exact Hk1.
Qed.

Lemma existsb_not_friend (friendProfiles : list Profile.t) (fid : jsstring) :
  Forall (fun f => Profile.id f <> fid) friendProfiles ->
  existsb (fun f => js_eqb (Profile.id f) fid) friendProfiles = false.
Proof.
  induction 1 as [|f l Hf _ IH]; simpl; [reflexivity|].
  rewrite IH. destruct (js_eqb (Profile.id f) fid) eqn:E; [|reflexivity].
  apply js_eqb_true in E. contradiction.
Qed.

(** The success alert is shown only when both directional rows,
    [(me, friend)] and [(friend, me)], are in the table with status
    ["accepted"]. *)
Theorem addFriend_added_both_rows (fail : jsstring * jsstring -> option PgError)
    (friendProfiles : list Profile.t) (myId : jsstring) (p : Profile.t)
    (friends friends' : FriendTable) :
  handleAddFriend fail friendProfiles myId p friends = (friends', AlertAdded) ->
  friends' !! (myId, Profile.id p) = Some (lit "accepted") /\
  friends' !! (Profile.id p, myId) = Some (lit "accepted").
Proof.
  unfold handleAddFriend.
  destruct (existsb _ friendProfiles); [discriminate|].
  destruct (insert_friend fail friends myId (Profile.id p) (lit "accepted"))
    as [friends1 e1] eqn:E1.
  destruct (insert_friend fail friends1 (Profile.id p) myId (lit "accepted"))
    as [friends2 e2] eqn:E2.
  destruct e1, e2; try discriminate. intros H. injection H as <-.
  pose proof (insert_friend_ok fail friends myId (Profile.id p) (lit "accepted")) as O1.
  pose proof (insert_friend_ok fail friends1 (Profile.id p) myId (lit "accepted")) as O2.
  pose proof (insert_friend_keeps fail friends1 (Profile.id p) myId (lit "accepted")) as K2.
  rewrite E1 in O1. rewrite E2 in O2, K2. simpl in *. auto.
Qed.

Lemma addFriend_added_both_rows_witness :
  handleAddFriend (fun _ => None) [] (lit "u1") sample_other ∅
  = (<[(lit "u2", lit "u1") := lit "accepted"]> {[(lit "u1", lit "u2") := lit "accepted"]},
     AlertAdded) /\
  (<[(lit "u2", lit "u1") := lit "accepted"]> {[(lit "u1", lit "u2") := lit "accepted"]}
     : FriendTable) !! (lit "u1", lit "u2") = Some (lit "accepted").
Proof.
  assert (H : handleAddFriend (fun _ => None) [] (lit "u1") sample_other ∅
    = (<[(lit "u2", lit "u1") := lit "accepted"]> {[(lit "u1", lit "u2") := lit "accepted"]},
       AlertAdded)) by reflexivity.
  exact (conj H (proj1 (addFriend_added_both_rows _ _ _ _ _ _ H))).
Defined.

Lemma handleAddFriend_fresh (fail : jsstring * jsstring -> option PgError)
    (friendProfiles : list Profile.t) (myId : jsstring) (p : Profile.t)
    (friends : FriendTable) :
  myId <> Profile.id p ->
  Forall (fun f => Profile.id f <> Profile.id p) friendProfiles ->
  friends !! (myId, Profile.id p) = None -> friends !! (Profile.id p, myId) = None ->
  fail (myId, Profile.id p) = None -> fail (Profile.id p, myId) = None ->
  handleAddFriend fail friendProfiles myId p friends
  = (<[(Profile.id p, myId) := lit "accepted"]>
       (<[(myId, Profile.id p) := lit "accepted"]> friends), AlertAdded).
Proof.
  intros Hne Hfp H1 H2 F1 F2. unfold handleAddFriend.
  rewrite existsb_not_friend by exact Hfp.
  unfold insert_friend at 1. rewrite H1, F1. cbv iota beta.
  unfold insert_friend. rewrite lookup_insert_ne by congruence.
  rewrite H2, F2. reflexivity.
Qed.

(** For two distinct users with neither row present and no rejection from
    the store, both rows are created and the success alert is shown. *)
Theorem addFriend_fresh_pair (fail : jsstring * jsstring -> option PgError)
    (friendProfiles : list Profile.t) (myId : jsstring) (p : Profile.t)
    (friends : FriendTable) :
  myId <> Profile.id p ->
  Forall (fun f => Profile.id f <> Profile.id p) friendProfiles ->
  friends !! (myId, Profile.id p) = None -> friends !! (Profile.id p, myId) = None ->
  fail (myId, Profile.id p) = None -> fail (Profile.id p, myId) = None ->
  handleAddFriend fail friendProfiles myId p friends
  = (<[(Profile.id p, myId) := lit "accepted"]>
       (<[(myId, Profile.id p) := lit "accepted"]> friends), AlertAdded).
Proof. apply handleAddFriend_fresh. Qed.

Lemma addFriend_fresh_pair_witness :
  handleAddFriend (fun _ => None) [] (lit "u1") sample_other ∅
  = (<[(lit "u2", lit "u1") := lit "accepted"]>
       (<[(lit "u1", lit "u2") := lit "accepted"]> ∅), AlertAdded).
Proof.
  apply (addFriend_fresh_pair (fun _ => None) [] (lit "u1") sample_other ∅);
    try reflexivity; try discriminate; constructor.
Defined.

(** Errors with code [23505] are never written to the console log. *)
Theorem addFriend_log_skips_unique (fail : jsstring * jsstring -> option PgError)
    (friendProfiles : list Profile.t) (myId : jsstring) (p : Profile.t)
    (friends friends' : FriendTable) (logged : list PgError) :
  handleAddFriend fail friendProfiles myId p friends = (friends', AlertFailed logged) ->
  Forall (fun e => code e <> lit "23505") logged.
Proof.
  assert (L : forall e, Forall (fun e => code e <> lit "23505") (log_unless_unique e)).
  { intros [err|]; simpl; [|constructor].
    destruct (js_eqb (code err) (lit "23505")) eqn:E; simpl; [constructor|].
    constructor; [|constructor]. intros C. rewrite C, js_eqb_refl in E. discriminate. }
  unfold handleAddFriend.
  destruct (existsb _ friendProfiles); [discriminate|].
  destruct (insert_friend fail friends myId (Profile.id p) (lit "accepted")) as [friends1 e1].
  destruct (insert_friend fail friends1 (Profile.id p) myId (lit "accepted")) as [friends2 e2].
  assert (L2 : forall o1 o2, Forall (fun e => code e <> lit "23505")
                                   (log_unless_unique o1 ++ log_unless_unique o2))
    by (intros; apply Forall_app; split; apply L).
  destruct e1 as [e1|], e2 as [e2|]; try discriminate; intros H; injection H as _ <-;
    first [exact (L2 (Some e1) (Some e2)) | exact (L2 (Some e1) None)
          | exact (L2 None (Some e2))].
Qed.

Lemma addFriend_log_skips_unique_witness :
  handleAddFriend (fun _ => Some {| code := lit "42501" |}) [] (lit "u1") sample_other
    {[(lit "u1", lit "u2") := lit "accepted"]}
  = ({[(lit "u1", lit "u2") := lit "accepted"]}, AlertFailed [{| code := lit "42501" |}]) /\
  Forall (fun e => code e <> lit "23505") [{| code := lit "42501" |}].
Proof.
  assert (H : handleAddFriend (fun _ => Some {| code := lit "42501" |}) [] (lit "u1")
                sample_other {[(lit "u1", lit "u2") := lit "accepted"]}
    = ({[(lit "u1", lit "u2") := lit "accepted"]}, AlertFailed [{| code := lit "42501" |}]))
    by reflexivity.
  exact (conj H (addFriend_log_skips_unique _ _ _ _ _ _ _ H)).
Defined.

(** Adding oneself: the first insert creates [(me, me)], the second is
    rejected with [23505] on that same row, so the failure alert is shown
    with nothing logged. *)
Theorem addFriend_self (fail : jsstring * jsstring -> option PgError)
    (friendProfiles : list Profile.t) (p : Profile.t) (friends : FriendTable) :
  Forall (fun f => Profile.id f <> Profile.id p) friendProfiles ->
  friends !! (Profile.id p, Profile.id p) = None ->
  fail (Profile.id p, Profile.id p) = None ->
  handleAddFriend fail friendProfiles (Profile.id p) p friends
  = (<[(Profile.id p, Profile.id p) := lit "accepted"]> friends, AlertFailed []).
Proof.
  intros Hfp H F. unfold handleAddFriend.
  rewrite existsb_not_friend by exact Hfp.
  unfold insert_friend at 1. rewrite H, F. cbv iota beta.
  unfold insert_friend. rewrite lookup_insert_eq. reflexivity.
Qed.

Lemma addFriend_self_witness :
  handleAddFriend (fun _ => None) [] (Profile.id sample_owner) sample_owner ∅
  = (<[(lit "u1", lit "u1") := lit "accepted"]> ∅, AlertFailed []).
Proof. apply (addFriend_self (fun _ => None) [] sample_owner ∅); reflexivity || constructor. Defined.

(** [handleAddFriend] refreshes the list with [fetchFriends], which throws
    before its query, so the list stays as it was.  Adding the same friend
    again then goes to the store: both inserts are rejected with [23505],
    the failure alert is shown (not the "already a friend" one) and nothing
    is written. *)
Theorem addFriend_twice_after_refresh (myProfile p : Profile.t) (friends : FriendTable)
    (s : FriendsState) :
  Profile.id myProfile <> Profile.id p ->
  Forall (fun f => Profile.id f <> Profile.id p) (friendProfiles s) ->
  friends !! (Profile.id myProfile, Profile.id p) = None ->
  friends !! (Profile.id p, Profile.id myProfile) = None ->
  let '(friends1, outcome1) :=
    handleAddFriend (fun _ => None) (friendProfiles s) (Profile.id myProfile) p friends in
  let s1 := settle s (fetchFriends (Some myProfile) s) in
  let '(friends2, outcome2) :=
    handleAddFriend (fun _ => None) (friendProfiles s1) (Profile.id myProfile) p friends1 in
  outcome1 = AlertAdded /\ s1 = s /\ outcome2 = AlertFailed [] /\ friends2 = friends1.
Proof.
  intros Hne Hfp H1 H2.
  rewrite (handleAddFriend_fresh (fun _ => None) _ _ p friends Hne Hfp H1 H2 eq_refl eq_refl).
  cbv zeta. simpl settle.
  unfold handleAddFriend. rewrite existsb_not_friend by exact Hfp.
  unfold insert_friend.
  rewrite lookup_insert_ne by congruence. rewrite lookup_insert_eq.
  rewrite lookup_insert_eq. repeat split.
Qed.

Lemma addFriend_twice_after_refresh_witness :
  let s := {| friendProfiles := []; selectedFriend := None |} in
  let '(friends1, outcome1) :=
    handleAddFriend (fun _ => None) (friendProfiles s) (Profile.id sample_owner)
      sample_other ∅ in
  let s1 := settle s (fetchFriends (Some sample_owner) s) in
  let '(friends2, outcome2) :=
    handleAddFriend (fun _ => None) (friendProfiles s1) (Profile.id sample_owner)
      sample_other friends1 in
  outcome1 = AlertAdded /\ s1 = s /\ outcome2 = AlertFailed [] /\ friends2 = friends1.
Proof.
  apply (addFriend_twice_after_refresh sample_owner sample_other ∅
           {| friendProfiles := []; selectedFriend := None |});
    reflexivity || discriminate || constructor.
Defined.

(** ** Profile provisioning *)

Lemma upsert_new_eq (sha256 : jsstring -> jsstring) (rand : jsstring)
    (profiles : ProfileTable) (userId : jsstring) (userEmail : option jsstring) :
  profiles !! userId = None ->
  upsertProfile sha256 None None rand profiles userId userEmail
  = (<[userId := Profile.mk userId (Some (lit "User-" ++ rand)) None
                   (generatedShortId sha256 userEmail)]> profiles,
     Some (Profile.mk userId (Some (lit "User-" ++ rand)) None
             (generatedShortId sha256 userEmail))).
Proof.
  intros H. unfold upsertProfile, select_profile. rewrite H.
  cbv zeta. cbn [negb js_eqb code no_rows].
  rewrite (proj2 (js_eqb_true (lit "PGRST116") (lit "PGRST116")) eq_refl).
  simpl. unfold insert_profile. simpl. rewrite H. reflexivity.
Qed.

(** A user without a profile row gets one: keyed by the user id, with the
    username ["User-"] followed by the random suffix, no avatar and the
    generated short id; that row is handed to [setMyProfile]. *)
Theorem upsertProfile_creates (sha256 : jsstring -> jsstring) (rand : jsstring)
    (profiles : ProfileTable) (userId : jsstring) (userEmail : option jsstring) :
  profiles !! userId = None ->
  upsertProfile sha256 None None rand profiles userId userEmail
  = (<[userId := Profile.mk userId (Some (lit "User-" ++ rand)) None
                   (generatedShortId sha256 userEmail)]> profiles,
     Some (Profile.mk userId (Some (lit "User-" ++ rand)) None
             (generatedShortId sha256 userEmail))).
Proof. apply upsert_new_eq. Qed.

Lemma upsertProfile_creates_witness :
  upsertProfile sha256_stub None None (lit "k3x") ∅ (lit "u1") None
  = (<[lit "u1" := Profile.mk (lit "u1") (Some (lit "User-k3x")) None (lit "guest_id")]> ∅,
     Some (Profile.mk (lit "u1") (Some (lit "User-k3x")) None (lit "guest_id"))).
Proof. apply (upsertProfile_creates sha256_stub (lit "k3x") ∅ (lit "u1") None). reflexivity. Defined.

(** [upsertProfile] never changes or removes a profile row; the only row it
    may add is the caller's own. *)
Theorem upsertProfile_frame (sha256 : jsstring -> jsstring)
    (read_failure insert_failure : option PgError) (rand : jsstring)
    (profiles : ProfileTable) (userId : jsstring) (userEmail : option jsstring) :
  let profiles' :=
    (upsertProfile sha256 read_failure insert_failure rand profiles userId userEmail).1 in
  (forall k q, profiles !! k = Some q -> profiles' !! k = Some q) /\
  (forall k, k <> userId -> profiles' !! k = profiles !! k).
Proof.
  assert (E : (upsertProfile sha256 read_failure insert_failure rand profiles userId userEmail).1
              = profiles \/
              (profiles !! userId = None /\
               exists row, Profile.id row = userId /\
               (upsertProfile sha256 read_failure insert_failure rand profiles userId userEmail).1
               = <[userId := row]> profiles)).
  { unfold upsertProfile.
    destruct (select_profile read_failure profiles userId) as [existing err] eqn:S.
    destruct (match err with Some e => negb (js_eqb (code e) (lit "PGRST116")) | None => false end);
      [left; reflexivity|].
    destruct existing as [q|]; [left; reflexivity|].
    cbv zeta. unfold insert_profile. cbn [Profile.id].
    destruct (profiles !! userId) eqn:L.
    - left. reflexivity.
    - destruct insert_failure; [left; reflexivity|].
      right. split; [reflexivity|]. eexists; split; [|reflexivity]. reflexivity. }
  cbv zeta. destruct E as [-> | [Hnone [row [_ ->]]]].
  - split; auto.
  - split.
    + intros k q Hk. rewrite lookup_insert_ne; [exact Hk|]. congruence.
    + intros k Hk. apply lookup_insert_ne. congruence.
Qed.

(** Calling [upsertProfile] again after it created the profile (as a second
    [onAuthStateChange] notification does) writes nothing and hands over the
    same profile. *)
Theorem upsertProfile_second_call (sha256 : jsstring -> jsstring)
    (insert_failure2 : option PgError) (rand rand2 : jsstring)
    (profiles : ProfileTable) (userId : jsstring) (userEmail userEmail2 : option jsstring) :
  profiles !! userId = None ->
  let '(profiles1, myProfile1) :=
    upsertProfile sha256 None None rand profiles userId userEmail in
  let '(profiles2, myProfile2) :=
    upsertProfile sha256 None insert_failure2 rand2 profiles1 userId userEmail2 in
  profiles2 = profiles1 /\ myProfile2 = myProfile1.
Proof.
  intros H. rewrite (upsert_new_eq sha256 rand profiles userId userEmail H).
  unfold upsertProfile, select_profile. rewrite lookup_insert_eq. split; reflexivity.
Qed.

Lemma upsertProfile_second_call_witness :
  let '(profiles1, myProfile1) :=
    upsertProfile sha256_stub None None (lit "k3x") ∅ (lit "u1") (Some (lit "a@x.com")) in
  let '(profiles2, myProfile2) :=
    upsertProfile sha256_stub None (Some unique_violation) (lit "zz") profiles1 (lit "u1")
      (Some (lit "b@y.com")) in
  profiles2 = profiles1 /\ myProfile2 = myProfile1.
Proof. apply (upsertProfile_second_call sha256_stub). reflexivity. Defined.

(** A failed read (other than "no row") or a rejected insert leaves the
    table unchanged and does not call [setMyProfile]. *)
Theorem upsertProfile_failures (sha256 : jsstring -> jsstring) (e : PgError)
    (other : option PgError) (rand : jsstring) (profiles : ProfileTable)
    (userId : jsstring) (userEmail : option jsstring) :
  (code e <> lit "PGRST116" ->
   upsertProfile sha256 (Some e) other rand profiles userId userEmail = (profiles, None)) /\
  (profiles !! userId = None ->
   upsertProfile sha256 None (Some e) rand profiles userId userEmail = (profiles, None)).
Proof.
  split.
  - intros He. unfold upsertProfile, select_profile. cbv zeta.
    destruct (js_eqb (code e) (lit "PGRST116")) eqn:E; [|reflexivity].
    apply js_eqb_true in E. contradiction.
  - intros H. unfold upsertProfile, select_profile. rewrite H. cbv zeta.
    cbn [code no_rows]. rewrite js_eqb_refl. simpl.
    unfold insert_profile. simpl. rewrite H. reflexivity.
Qed.

Lemma upsertProfile_failures_witness :
  upsertProfile sha256_stub (Some {| code := lit "08006" |}) None (lit "k") ∅ (lit "u1") None
  = (∅, None) /\
  upsertProfile sha256_stub None (Some {| code := lit "08006" |}) (lit "k") ∅ (lit "u1") None
  = (∅, None).
Proof.
  destruct (upsertProfile_failures sha256_stub {| code := lit "08006" |} None (lit "k") ∅
              (lit "u1") None) as [H1 H2].
  split; [apply H1; discriminate | apply H2; reflexivity].
Defined.

(** ** Sender display *)

(** The sender name shown above a message is never empty: it falls back
    from the username to the short id to ["Unknown"]. *)
Theorem senderName_nonempty (sessionUserId : jsstring) (myProfile friendProfile : Profile.t)
    (message : Message.t) :
  senderName sessionUserId myProfile friendProfile message <> [].
Proof.
  unfold senderName, js_or.
  destruct (if js_eqb _ _ then myProfile else friendProfile) as [i [u|] a s]; simpl.
  - destruct u as [|c u]; simpl; [|discriminate].
    destruct s; simpl; discriminate.
  - destruct s; simpl; discriminate.
Qed.

(** ** Image messages *)

Lemma split_last_part (c : N) (s : jsstring) :
  exists pre, s = pre ++ List.last (js_split c s) [] /\
  (c ∉ List.last (js_split c s) []) /\
  ((pre = [] /\ length (js_split c s) = 1) \/
   ((exists q, pre = q ++ [c]) /\ 1 < length (js_split c s))).
Proof.
  induction s as [|x s IH]; simpl.
  - exists []. split; [reflexivity|]. split; [apply not_elem_of_nil|]. left; auto.
  - destruct IH as [pre [Hs [Hc Hpre]]].
    destruct (js_split c s) as [|p ps] eqn:E.
    { destruct Hpre as [[_ H] | [_ H]]; simpl in H; lia. }
    destruct (N.eqb_spec x c) as [->|Hx].
    + exists (c :: pre). split; [|split].
      * simpl. rewrite Hs at 1. reflexivity.
      * exact Hc.
      * right. split; [|simpl; lia].
        destruct Hpre as [[-> _] | [[q ->] _]]; [exists []; reflexivity|].
        exists (c :: q). reflexivity.
    + destruct Hpre as [[-> Hlen] | [[q ->] Hlen]].
      * destruct ps; simpl in Hlen; [|lia].
        exists []. simpl in *. split; [|split].
        -- rewrite Hs. reflexivity.
        -- intros Hin. apply elem_of_cons in Hin as [Hin|Hin]; [congruence | exact (Hc Hin)].
        -- left. auto.
      * destruct ps as [|p' ps]; simpl in Hlen; [lia|].
        exists (x :: q ++ [c]). split; [|split].
        -- simpl. f_equal. exact Hs.
        -- exact Hc.
        -- right. split; [exists (x :: q); reflexivity | simpl; lia].
Qed.

(** The extension taken from the file name is the part after its last
    ['.']: the name is a prefix, empty or ending in ['.'], followed by the
    extension, which contains no ['.']. *)
Theorem fileExt_after_last_dot (name : jsstring) :
  exists pre, name = pre ++ fileExt name /\ (dot ∉ fileExt name) /\
  (pre = [] \/ exists q, pre = q ++ [dot]).
Proof.
  destruct (split_last_part dot name) as [pre [H1 [H2 H3]]].
  exists pre. unfold fileExt, js_pop. split; [exact H1|]. split; [exact H2|].
  destruct H3 as [[-> _] | [H _]]; [left; reflexivity | right; exact H].
Qed.

Lemma split_at_sep (c : N) (x y x' y' : jsstring) :
  c ∉ x -> c ∉ x' -> x ++ [c] ++ y = x' ++ [c] ++ y' -> x = x' /\ y = y'.
Proof.
  revert x'; induction x as [|a x IH]; intros [|a' x'] Hx Hx' H; simpl in H.
  - injection H; auto.
  - injection H as Ha _. exfalso. apply Hx'. rewrite Ha. apply elem_of_cons. left. reflexivity.
  - injection H as Ha _. exfalso. apply Hx. rewrite <- Ha. apply elem_of_cons. left. reflexivity.
  - injection H as -> H.
    destruct (IH x') as [-> ->]; auto.
    + intros Hin. apply Hx. apply elem_of_cons. right. exact Hin.
    + intros Hin. apply Hx'. apply elem_of_cons. right. exact Hin.
Qed.

(** Storage paths are scoped by room and user: when room and user ids
    contain no ['/'], two uploads for different rooms or different users
    never get the same path. *)
Theorem filePath_scoped (room user rand name room' user' rand' name' : jsstring) :
  slash ∉ room -> slash ∉ user -> slash ∉ room' -> slash ∉ user' ->
  filePath room user rand name = filePath room' user' rand' name' ->
  room = room' /\ user = user'.
Proof.
  intros Hr Hu Hr' Hu' H. unfold filePath in H.
  apply app_inv_head in H.
  destruct (split_at_sep slash _ _ _ _ Hr Hr' H) as [-> H2].
  simpl in H2.
  destruct (split_at_sep slash _ _ _ _ Hu Hu' H2) as [-> _].
  split; reflexivity.
Qed.

Lemma filePath_scoped_witness :
  (slash ∉ lit "u1_u2") /\ (slash ∉ lit "u1") /\ (slash ∉ lit "u1_u3") /\
  (filePath (lit "u1_u2") (lit "u1") (lit "0.5") (lit "a.png")
   <> filePath (lit "u1_u3") (lit "u1") (lit "0.5") (lit "a.png")).
Proof.
  assert (H1 : slash ∉ lit "u1_u2") by (apply (bool_decide_unpack (slash ∉ _)); vm_compute; exact I).
  assert (H2 : slash ∉ lit "u1") by (apply (bool_decide_unpack (slash ∉ _)); vm_compute; exact I).
  assert (H3 : slash ∉ lit "u1_u3") by (apply (bool_decide_unpack (slash ∉ _)); vm_compute; exact I).
  split; [exact H1|]. split; [exact H2|]. split; [exact H3|].
  intros E. destruct (filePath_scoped _ _ _ _ _ _ _ _ H1 H2 H3 H2 E) as [R _].
  discriminate R.
Defined.

(** ** The conversation view and its reloads *)

Lemma insert_changes_length (r : MessageRow.t) (prof : option Profile.t)
    (v : list Message.t) :
  length v <= RETENTION ->
  length (messageListener {| eventType := INSERT; new := r |} prof v)
  = if length v <? RETENTION then S (length v) else length v.
Proof.
  intros Hv. unfold messageListener; cbn [eventType].
  rewrite appendMessage_lastn. unfold lastn.
  rewrite length_drop, length_app. simpl.
  destruct (Nat.ltb_spec (length v) RETENTION); unfold RETENTION in *; lia.
Qed.

(** After a live [INSERT] is merged into a view of at most 200 messages,
    the [Chat] effect keyed on [[currentRoomId, messages.length]] re-runs
    (removing the channel, refetching the room, subscribing anew and
    scrolling) exactly when the view had fewer than 200 messages; once the
    view is full, live messages trigger no refetch and no resubscription. *)
Theorem insert_reruns_chat_effect (room : jsstring) (r : MessageRow.t)
    (prof : option Profile.t) (v : list Message.t) :
  length v <= RETENTION ->
  chatEffect_commit (chatEffectDeps room v)
    (chatEffectDeps room (messageListener {| eventType := INSERT; new := r |} prof v))
  = if length v <? RETENTION
    then [RemoveChannel room; FetchMessages room; Subscribe room; ScrollToBottom]
    else [].
Proof.
  intros Hv. unfold chatEffect_commit, deps_changed, chatEffectDeps; cbn [fst snd].
  rewrite js_eqb_refl, (insert_changes_length r prof v Hv); simpl.
  destruct (Nat.ltb_spec (length v) RETENTION) as [Hlt|Hge].
  - replace (length v =? S (length v)) with false
      by (symmetry; apply Nat.eqb_neq; lia).
    reflexivity.
  - rewrite Nat.eqb_refl. reflexivity.
Qed.

Lemma insert_reruns_chat_effect_witness :
  length sample_full_view <= RETENTION /\ length (@nil Message.t) <= RETENTION /\
  chatEffect_commit (chatEffectDeps (lit "alice_bob") sample_full_view)
    (chatEffectDeps (lit "alice_bob")
       (messageListener {| eventType := INSERT; new := sample_row 200 |} None
          sample_full_view)) = [] /\
  chatEffect_commit (chatEffectDeps (lit "alice_bob") [])
    (chatEffectDeps (lit "alice_bob")
       (messageListener {| eventType := INSERT; new := sample_row 0 |} None []))
  = [RemoveChannel (lit "alice_bob"); FetchMessages (lit "alice_bob");
     Subscribe (lit "alice_bob"); ScrollToBottom].
Proof.
  assert (H1 : length sample_full_view <= RETENTION)
    by (unfold sample_full_view, RETENTION; rewrite length_map, length_seq; lia).
  assert (H2 : length (@nil Message.t) <= RETENTION) by (simpl; unfold RETENTION; lia).
  split; [exact H1|]. split; [exact H2|]. split.
  - rewrite (insert_reruns_chat_effect (lit "alice_bob") (sample_row 200) None _ H1).
    vm_compute. reflexivity.
  - rewrite (insert_reruns_chat_effect (lit "alice_bob") (sample_row 0) None [] H2).
    reflexivity.
Defined.

Lemma forallb_take {A} (f : A -> bool) (n : nat) (l : list A) :
  forallb f l = true -> forallb f (take n l) = true.
Proof.
  revert n; induction l as [|a l IH]; intros [|n] H; simpl in *; auto.
  apply andb_true_iff in H as [Ha Hl]. rewrite Ha. simpl. auto.
Qed.

Lemma count_id_none (i : jsstring) (l : list Message.t) :
  forallb (fun m => negb (js_eqb (Message.id m) i)) l = true -> count_id i l = 0.
Proof.
  unfold count_id. induction l as [|m l IH]; simpl; [reflexivity|].
  intros H. apply andb_true_iff in H as [Hm Hl].
  destruct (js_eqb (Message.id m) i); [discriminate|]. auto.
Qed.

(** The bulk read takes the first 200 messages of the room in ascending
    [created_at] order: when the room holds more than 200, the newest one is
    not in the loaded view. *)
Theorem bulk_read_misses_newest (rows pre : list Message.t) (newest : Message.t)
    (room : jsstring) :
  List.filter (fun m => js_eqb (Message.room_id m) room) rows = pre ++ [newest] ->
  RETENTION <= length pre ->
  forallb (fun m => negb (js_eqb (Message.id m) (Message.id newest))) pre = true ->
  count_id (Message.id newest) (select_room_messages rows room) = 0.
Proof.
  intros Hf Hlen Hids. unfold select_room_messages. rewrite Hf.
  rewrite take_app_le by (unfold RETENTION in Hlen; lia).
  apply count_id_none, forallb_take, Hids.
Qed.

Lemma bulk_read_misses_newest_witness :
  List.filter (fun m => js_eqb (Message.room_id m) (lit "alice_bob")) sample_room_rows
  = map (fun n => with_profile (sample_row n) None) (seq 0 200)
    ++ [with_profile (sample_row 200) None] /\
  count_id (digits3 200) (select_room_messages sample_room_rows (lit "alice_bob")) = 0.
Proof.
  assert (H1 : List.filter (fun m => js_eqb (Message.room_id m) (lit "alice_bob"))
                 sample_room_rows
               = map (fun n => with_profile (sample_row n) None) (seq 0 200)
                 ++ [with_profile (sample_row 200) None]) by (vm_compute; reflexivity).
  assert (H2 : RETENTION <= length (map (fun n => with_profile (sample_row n) None) (seq 0 200)))
    by (rewrite length_map, length_seq; unfold RETENTION; lia).
  assert (H3 : forallb (fun m => negb (js_eqb (Message.id m)
                                        (Message.id (with_profile (sample_row 200) None))))
                 (map (fun n => with_profile (sample_row n) None) (seq 0 200)) = true)
    by (vm_compute; reflexivity).
  exact (conj H1 (bulk_read_misses_newest _ _ _ _ H1 H2 H3)).
Defined.

